(** * A procedural, animated ornamental tree: scene composition and per-frame
      animation (src/index.tsx)

    The source is a React / three.js scene.  The parts modelled here are the
    procedural geometry (the spiral ribbon of [Ribbon], the ring of ornaments
    of [TreeLayer]) and the per-frame callbacks registered with [useFrame]
    ([Ribbon], [Ornament], [TreeLayer], [StarTopper]).

    Numbers.  JavaScript numbers are modelled as real numbers ([R]); rounding,
    infinities and NaN are outside the model.  Integer props ([layerIndex],
    the loop counters) are [Z] and [nat]; [%] is JavaScript's truncating
    remainder, [Z.rem].

    Randomness.  [Math.random()] is modelled as an explicit, threaded source
    of draws.

    The frame loop.  The host (react-three-fiber) calls, once per displayed
    frame, every callback registered with [useFrame], passing the root state
    (whose clock gives the elapsed time) and the frame's [delta].  [tick]
    below is that loop, with the clock advanced by [delta].  The callbacks
    run on mounted components, so the [if (ref.current)] guards hold. *)

From Stdlib Require Import Reals Lra Lia ZArith List.
Import ListNotations.

Local Open Scope R_scope.

(** ** Vectors and library helpers *)

(** [THREE.Vector3] *)
Record Vector3 : Type := mkVector3 { vx : R; vy : R; vz : R }.

(** [Vector3.setScalar(s)]: all three components become [s]. *)
Definition setScalar (s : R) : Vector3 := mkVector3 s s s.

(** [THREE.MathUtils.lerp(x, y, t)] *)
Definition lerp (x y t : R) : R := (1 - t) * x + t * y.

(** [THREE.CatmullRomCurve3]: the spline through the given control points. *)
Record CatmullRomCurve3 : Type := mkCurve { points : list Vector3 }.

(** The outcome of running a constructor: it returns a value or throws. *)
Inductive Outcome (A : Type) : Type :=
| Returned (a : A)
| Thrown (message : nat).
Arguments Returned {A} a.
Arguments Thrown {A} message.

(** ** Ribbon: the wrapping curve (src/index.tsx:57-85) *)

Module Ribbon.

(** The body of the [for] loop of the [useMemo] callback, at counter [i].
    [steps] and [rOffset] are the two local constants of the callback. *)
Definition point (steps : nat) (rOffset : R)
           (radiusBottom radiusTop height turns : R) (i : nat) : Vector3 :=
  let t := INR i / INR steps in
  let r := lerp (radiusBottom + rOffset) (radiusTop + rOffset) t in
  let theta := t * PI * 2 * turns in
  let y := (t - 0.5) * height in
  let x := cos theta * r in
  let z := sin theta * r in
  mkVector3 x y z.

(** [const theta = t * Math.PI * 2 * turns], the angle of the loop body at
    counter [i]. *)
Definition theta (steps : nat) (turns : R) (i : nat) : R :=
  INR i / INR steps * PI * 2 * turns.

(** [for (let i = 0; i <= steps; i++) points.push(...)] *)
Definition loop (steps : nat) (rOffset : R)
           (radiusBottom radiusTop height turns : R) : list Vector3 :=
  map (point steps rOffset radiusBottom radiusTop height turns)
      (seq 0 (S steps)).

Definition steps : nat := 100.
Definition rOffset : R := 0.2.

(** The [useMemo] callback: no path of it throws. *)
Definition curve (radiusBottom radiusTop height turns : R)
  : Outcome CatmullRomCurve3 :=
  Returned (mkCurve (loop steps rOffset radiusBottom radiusTop height turns)).

End Ribbon.

(** ** Math.random *)

(** The source of pseudo-random numbers behind [Math.random()]: the stream of
    the results of its future calls.  There is no seed in the interface. *)
Definition RandomSource : Type := nat -> R.

(** One call of [Math.random()]: the next draw and the advanced source. *)
Definition Math_random (g : RandomSource) : R * RandomSource :=
  (g O, fun n => g (S n)).


(** ** Ornament (src/index.tsx:102-121) *)

(** An [<Ornament position scale />] element with the rotation of its mesh
    ([meshRef.current.rotation], zero when the mesh is created). *)
Record Ornament : Type := mkOrnament {
  position : Vector3;
  scale : R;
  rotation_y : R;
  rotation_z : R
}.

Module OrnamentC.

(** The [useFrame] callback; it reads neither [state] nor [delta]. *)
Definition useFrame (o : Ornament) : Ornament :=
  mkOrnament (position o) (scale o)
             (rotation_y o + 0.01) (rotation_z o + 0.005).

End OrnamentC.

(** ** TreeLayer: the ring of ornaments (src/index.tsx:135-156) *)

Module Ring.

(** The position computed by the body of the loop at counter [i].  [count],
    [radius] and the three literals of the vertical wave are the constants
    of the callback. *)
Definition place (count : Z) (radius verticalBaseOffset
                  verticalWaveAmplitude verticalWaveFrequency : R)
           (i : nat) : Vector3 :=
  let angle := (INR i / IZR count) * PI * 2 in
  let x := cos angle * radius in
  let z := sin angle * radius in
  let y := verticalBaseOffset
           + sin (angle * verticalWaveFrequency) * verticalWaveAmplitude in
  mkVector3 x y z.

(** [for (let i = 0; i < count; i++) items.push(<Ornament ... />)], with
    [n] iterations left, counter [i] and random source [g]. *)
Fixpoint loop (count : Z) (radius verticalBaseOffset verticalWaveAmplitude
               verticalWaveFrequency baseScale jitterRange : R)
         (n i : nat) (g : RandomSource) : list Ornament * RandomSource :=
  match n with
  | O => ([], g)
  | S n' =>
      let p := place count radius verticalBaseOffset verticalWaveAmplitude
                     verticalWaveFrequency i in
      let (u, g1) := Math_random g in
      let item := mkOrnament p (baseScale + u * jitterRange) 0 0 in
      let (items, g2) :=
        loop count radius verticalBaseOffset verticalWaveAmplitude
             verticalWaveFrequency baseScale jitterRange n' (S i) g1 in
      (item :: items, g2)
  end.

(** The loop run from [i = 0] while [i < count]. *)
Definition placeAroundRing (count : Z) (radius verticalBaseOffset
               verticalWaveAmplitude verticalWaveFrequency
               baseScale jitterRange : R) (g : RandomSource)
  : list Ornament * RandomSource :=
  loop count radius verticalBaseOffset verticalWaveAmplitude
       verticalWaveFrequency baseScale jitterRange (Z.to_nat count) O g.

(** The [useMemo] callback of [TreeLayer]:
    [count = 6 + layerIndex * 2], [radius = 1.3],
    [y = -0.8 + Math.sin(angle * 3) * 0.2],
    [scale = 0.6 + Math.random() * 0.4]. *)
Definition ornaments (layerIndex : Z) (g : RandomSource)
  : list Ornament * RandomSource :=
  placeAroundRing (6 + layerIndex * 2) 1.3 (-0.8) 0.2 3 0.6 0.4 g.

End Ring.

(** ** The scene and its per-frame callbacks *)

(** The mesh of a [Ribbon]: its curve and [meshRef.current.rotation.y]. *)
Record RibbonMesh : Type := mkRibbon {
  ribbon_curve : CatmullRomCurve3;
  ribbon_rotation_y : R
}.

(** A [TreeLayer]: its props, the rotation of its group
    ([groupRef.current.rotation.y]) and its children. *)
Record TreeLayer : Type := mkTreeLayer {
  layer_position : Vector3;
  layer_scale : Vector3;
  rotationSpeed : R;
  layerIndex : Z;
  layer_rotation_y : R;
  layer_ribbon : RibbonMesh;
  layer_ornaments : list Ornament
}.

(** The group of the [StarTopper]. *)
Record StarTopper : Type := mkStarTopper {
  topper_position : Vector3;
  topper_rotation_y : R;
  topper_scale : Vector3
}.

(** The animated part of the tree with the clock of the root state. *)
Record Scene : Type := mkScene {
  elapsedTime : R;
  layers : list TreeLayer;
  topper : StarTopper
}.

Module RibbonC.

(** [meshRef.current.rotation.y = -state.clock.getElapsedTime() * 0.15] *)
Definition useFrame (elapsed : R) (r : RibbonMesh) : RibbonMesh :=
  mkRibbon (ribbon_curve r) (- elapsed * 0.15).

End RibbonC.

Module TreeLayerC.

(** [const dir = layerIndex % 2 === 0 ? 1 : -1] *)
Definition dir (layerIndex : Z) : R :=
  if (Z.rem layerIndex 2 =? 0)%Z then 1 else -1.

(** [groupRef.current.rotation.y += delta * rotationSpeed * dir * 0.5] *)
Definition useFrame (delta : R) (l : TreeLayer) : TreeLayer :=
  mkTreeLayer (layer_position l) (layer_scale l) (rotationSpeed l)
              (layerIndex l)
              (layer_rotation_y l
               + delta * rotationSpeed l * dir (layerIndex l) * 0.5)
              (layer_ribbon l) (layer_ornaments l).

End TreeLayerC.

Module StarTopperC.

(** [rotation.y = t * 0.5; scale.setScalar(1 + Math.sin(t * 2) * 0.1)] *)
Definition useFrame (t : R) (s : StarTopper) : StarTopper :=
  mkStarTopper (topper_position s) (t * 0.5)
               (setScalar (1 + sin (t * 2) * 0.1)).

End StarTopperC.

(** The callbacks of one layer's subtree in one frame: its ribbon's, its
    ornaments' and its own.  They write disjoint fields. *)
Definition frame_layer (elapsed delta : R) (l : TreeLayer) : TreeLayer :=
  TreeLayerC.useFrame delta
    (mkTreeLayer (layer_position l) (layer_scale l) (rotationSpeed l)
                 (layerIndex l) (layer_rotation_y l)
                 (RibbonC.useFrame elapsed (layer_ribbon l))
                 (map OrnamentC.useFrame (layer_ornaments l))).

(** One frame of the host loop: the clock advances by [delta], then every
    registered callback runs with the new elapsed time and [delta]. *)
Definition tick (s : Scene) (delta : R) : Scene :=
  let elapsed := elapsedTime s + delta in
  mkScene elapsed
          (map (frame_layer elapsed delta) (layers s))
          (StarTopperC.useFrame elapsed (topper s)).

(** A run of frames, one per element of [deltas], oldest first. *)
Definition run (deltas : list R) (s : Scene) : Scene :=
  fold_left tick deltas s.

(** [n] frames of the same [delta]. *)
Definition frames (n : nat) (delta : R) : list R := repeat delta n.

(** The sum of a list of frame times. *)
Definition total (deltas : list R) : R := fold_right Rplus 0 deltas.

(** ** ChristmasTree (src/index.tsx:273-300): the scene as mounted *)

(** A [<TreeLayer position scale layerIndex />] element as mounted: default
    [rotationSpeed = 0.2], group rotation zero, the ribbon of the cone
    dimensions [rBottom = 1.8], [rTop = 0.1], [height = 2.5] with the default
    [turns = 3], and the ornaments drawn from [g]. *)
Definition mountTreeLayer (pos scl : Vector3) (index : Z) (g : RandomSource)
  : TreeLayer * RandomSource :=
  let (items, g') := Ring.ornaments index g in
  let c := match Ribbon.curve 1.8 0.1 2.5 3 with
           | Returned c => c
           | Thrown _ => mkCurve []
           end in
  (mkTreeLayer pos scl 0.2 index 0 (mkRibbon c 0) items, g').

(** The [position], [scale] and [layerIndex] props of a [<TreeLayer />]. *)
Record TreeLayerProps : Type := mkProps {
  prop_position : Vector3;
  prop_scale : Vector3;
  prop_layerIndex : Z
}.

(** Mounting the layers in document order; each draws its ornaments' scales
    from the source left by the one before. *)
Fixpoint mountLayers (props : list TreeLayerProps) (g : RandomSource)
  : list TreeLayer :=
  match props with
  | [] => []
  | p :: rest =>
      let (l, g') :=
        mountTreeLayer (prop_position p) (prop_scale p) (prop_layerIndex p) g in
      l :: mountLayers rest g'
  end.

(** The four layers of [ChristmasTree], bottom first. *)
Definition treeLayers : list TreeLayerProps :=
  [ mkProps (mkVector3 0 0 0) (mkVector3 1.5 1.2 1.5) 3;
    mkProps (mkVector3 0 1.5 0) (mkVector3 1.2 1.2 1.2) 2;
    mkProps (mkVector3 0 2.8 0) (mkVector3 0.9 1.2 0.9) 1;
    mkProps (mkVector3 0 3.8 0) (mkVector3 0.5 1 0.5) 0 ].

(** The scene before its first frame: clock at zero, no rotation, the
    topper at [0, 4.2, 0] with unit scale.  The [<Float>] that wraps the
    layers (line 276) mounts before them and draws one number from
    [Math.random()] for its own phase; the layers draw from what is left. *)
Definition ChristmasTree (g : RandomSource) : Scene :=
  let (_, g1) := Math_random g in
  mkScene 0 (mountLayers treeLayers g1)
          (mkStarTopper (mkVector3 0 4.2 0) 0 (setScalar 1)).

(** ** Observations *)

(** The frames of a run as one layer sees them; [elapsed] is the clock
    before the first of them. *)
Fixpoint run_layer (elapsed : R) (deltas : list R) (l : TreeLayer)
  : TreeLayer :=
  match deltas with
  | [] => l
  | d :: rest => run_layer (elapsed + d) rest (frame_layer (elapsed + d) d l)
  end.

(** The first ornament of the first layer. *)
Definition first_ornament (s : Scene) : option Ornament :=
  match layers s with
  | l :: _ => head (layer_ornaments l)
  | [] => None
  end.

(** The stored yaw of the layer at position [k] of the scene. *)
Definition layer_yaw (s : Scene) (k : nat) : option R :=
  nth_error (map layer_rotation_y (layers s)) k.

(** A random source that always draws [u]. *)
Definition constant_source (u : R) : RandomSource := fun _ => u.


(** * Properties *)

(** ** The wrapping curve *)

Section RibbonFacts.

Variables (steps : nat) (rOffset radiusBottom radiusTop height turns : R).

Lemma loop_length :
  length (Ribbon.loop steps rOffset radiusBottom radiusTop height turns)
  = S steps.
Proof. unfold Ribbon.loop. rewrite length_map, length_seq. reflexivity. Qed.

Lemma loop_nth_error (i : nat) :
  (i <= steps)%nat ->
  nth_error (Ribbon.loop steps rOffset radiusBottom radiusTop height turns) i
  = Some (Ribbon.point steps rOffset radiusBottom radiusTop height turns i).
Proof.
  intros Hi. unfold Ribbon.loop.
  rewrite nth_error_map, nth_error_seq.
  destruct (Nat.ltb_spec i (S steps)) as [_ | Hge]; [reflexivity | lia].
Qed.

Lemma parameter_last : (1 <= steps)%nat -> INR steps / INR steps = 1.
Proof.
  intros Hs. apply Rdiv_diag.
  apply not_0_INR. lia.
Qed.

Lemma parameter_monotone (i j : nat) :
  (1 <= steps)%nat -> (i <= j)%nat -> INR i / INR steps <= INR j / INR steps.
Proof.
  intros Hs Hij. unfold Rdiv.
  apply Rmult_le_compat_r.
  - left. apply Rinv_0_lt_compat. apply lt_0_INR. lia.
  - apply le_INR. exact Hij.
Qed.

Lemma parameter_strictly_monotone (i j : nat) :
  (1 <= steps)%nat -> (i < j)%nat -> INR i / INR steps < INR j / INR steps.
Proof.
  intros Hs Hij. unfold Rdiv.
  apply Rmult_lt_compat_r.
  - apply Rinv_0_lt_compat. apply lt_0_INR. lia.
  - apply lt_INR. exact Hij.
Qed.

End RibbonFacts.

Example ribbon_default_first :
  nth_error (Ribbon.loop 100 0.2 1.8 0.1 2.5 3) 0
  = Some (mkVector3 2 (-1.25) 0).
Proof.
  rewrite loop_nth_error by lia. unfold Ribbon.point, lerp.
  rewrite !INR_IZR_INZ. cbn [Z.of_nat Pos.of_succ_nat Pos.succ].
  replace (0 / 100 * PI * 2 * 3) with 0 by lra.
  rewrite cos_0, sin_0. do 2 f_equal; lra.
Qed.

(** C5 (as claimed, refuted).  With [turns = -1], and radii and sample count
    the claim calls valid, the curve construction returns its 101 control
    points, but the angle does not increase along them: the angle of the
    second point is below the angle of the first. *)
Lemma wrapCurve_negative_turns_angle_decreases :
  Ribbon.curve 1.8 0.1 2.5 (-1)
  = Returned (mkCurve (Ribbon.loop 100 0.2 1.8 0.1 2.5 (-1)))
  /\ nth_error (Ribbon.loop 100 0.2 1.8 0.1 2.5 (-1)) 1
     = Some (mkVector3
               (cos (Ribbon.theta 100 (-1) 1)
                * lerp (1.8 + 0.2) (0.1 + 0.2) (INR 1 / INR 100))
               ((INR 1 / INR 100 - 0.5) * 2.5)
               (sin (Ribbon.theta 100 (-1) 1)
                * lerp (1.8 + 0.2) (0.1 + 0.2) (INR 1 / INR 100)))
  /\ Ribbon.theta 100 (-1) 0 = 0
  /\ Ribbon.theta 100 (-1) 1 < Ribbon.theta 100 (-1) 0
  /\ ~ (forall i j, (i <= j <= 100)%nat ->
                    Ribbon.theta 100 (-1) i <= Ribbon.theta 100 (-1) j).
Proof.
  assert (H0 : Ribbon.theta 100 (-1) 0 = 0).
  { unfold Ribbon.theta. rewrite !INR_IZR_INZ.
    change (Z.of_nat 0) with 0%Z. change (Z.of_nat 100) with 100%Z. lra. }
  assert (H1 : Ribbon.theta 100 (-1) 1 < Ribbon.theta 100 (-1) 0).
  { rewrite H0. unfold Ribbon.theta. rewrite !INR_IZR_INZ.
    change (Z.of_nat 1) with 1%Z. change (Z.of_nat 100) with 100%Z.
    pose proof PI_RGT_0. lra. }
  split; [reflexivity |].
  split; [rewrite loop_nth_error by lia; reflexivity |].
  split; [exact H0 |]. split; [exact H1 |].
  intros Hmono. specialize (Hmono 0%nat 1%nat ltac:(lia)). lra.
Qed.

(** C5 (amended).  The sample count and the radial offset are not inputs:
    they are fixed at 100 and 0.2.  For every bottom radius, top radius,
    height and number of turns the curve construction returns exactly 101
    control points.  Point [i], at [t = i / 100], has angle
    [t * 2 pi * turns], radius interpolated linearly from
    [radiusBottom + 0.2] (at the first point) to [radiusTop + 0.2] (at the
    last), height [(t - 0.5) * height] and position
    [(cos angle * radius, height, sin angle * radius)].  The first angle is
    0 and the last is [2 pi * turns]; the angle increases along the curve
    when [turns > 0], is constant when [turns = 0] and decreases when
    [turns < 0]. *)
Theorem wrapCurve_control_points :
  forall radiusBottom radiusTop height turns : R,
  exists c,
    Ribbon.curve radiusBottom radiusTop height turns = Returned c
    /\ length (points c) = 101%nat
    /\ (forall i, (i <= 100)%nat ->
          let t := INR i / 100 in
          let angle := t * (2 * PI) * turns in
          let radius := lerp (radiusBottom + 0.2) (radiusTop + 0.2) t in
          Ribbon.theta 100 turns i = angle
          /\ nth_error (points c) i
             = Some (mkVector3 (cos angle * radius)
                               ((t - 0.5) * height)
                               (sin angle * radius)))
    /\ lerp (radiusBottom + 0.2) (radiusTop + 0.2) (INR 0 / 100)
       = radiusBottom + 0.2
    /\ lerp (radiusBottom + 0.2) (radiusTop + 0.2) (INR 100 / 100)
       = radiusTop + 0.2
    /\ Ribbon.theta 100 turns 0 = 0
    /\ Ribbon.theta 100 turns 100 = 2 * PI * turns
    /\ (0 <= turns -> forall i j, (i <= j <= 100)%nat ->
          Ribbon.theta 100 turns i <= Ribbon.theta 100 turns j)
    /\ (0 < turns -> forall i j, (i < j <= 100)%nat ->
          Ribbon.theta 100 turns i < Ribbon.theta 100 turns j)
    /\ (turns < 0 -> forall i j, (i < j <= 100)%nat ->
          Ribbon.theta 100 turns j < Ribbon.theta 100 turns i).
Proof.
  intros rb rt h turns.
  assert (H100 : INR 100 = 100)
    by (rewrite INR_IZR_INZ; change (Z.of_nat 100) with 100%Z; reflexivity).
  assert (Hs : (1 <= 100)%nat) by lia.
  assert (Hpi : 0 < 2 * PI) by (generalize PI_RGT_0; lra).
  eexists. split; [reflexivity |]. cbn [points].
  split; [apply loop_length |].
  split.
  { intros i Hi. cbv zeta. split.
    - unfold Ribbon.theta. rewrite H100. ring.
    - unfold Ribbon.steps, Ribbon.rOffset.
      rewrite loop_nth_error by exact Hi.
      unfold Ribbon.point. rewrite H100.
      replace (INR i / 100 * PI * 2 * turns)
        with (INR i / 100 * (2 * PI) * turns) by ring.
      reflexivity. }
  split; [unfold lerp; cbn [INR]; lra |].
  split; [unfold lerp; rewrite H100; lra |].
  split; [unfold Ribbon.theta; cbn [INR]; lra |].
  split; [unfold Ribbon.theta; rewrite H100; lra |].
  split; [| split].
  - intros Hturns i j [Hij Hj]. unfold Ribbon.theta.
    pose proof (parameter_monotone 100 i j Hs Hij) as Ht.
    apply Rmult_le_compat_r; [exact Hturns |].
    apply Rmult_le_compat_r; [lra |].
    apply Rmult_le_compat_r; [generalize PI_RGT_0; lra | exact Ht].
  - intros Hturns i j [Hij Hj]. unfold Ribbon.theta.
    pose proof (parameter_strictly_monotone 100 i j Hs Hij) as Ht.
    apply Rmult_lt_compat_r; [exact Hturns |].
    apply Rmult_lt_compat_r; [lra |].
    apply Rmult_lt_compat_r; [exact PI_RGT_0 | exact Ht].
  - intros Hturns i j [Hij Hj]. unfold Ribbon.theta.
    pose proof (parameter_strictly_monotone 100 i j Hs Hij) as Ht.
    assert (Hlt : INR i / INR 100 * PI * 2 < INR j / INR 100 * PI * 2).
    { apply Rmult_lt_compat_r; [lra |].
      apply Rmult_lt_compat_r; [exact PI_RGT_0 | exact Ht]. }
    nra.
Qed.

(** C3 (as claimed, refuted).  With a negative bottom and top radius the
    curve construction of the source throws nothing: it returns a curve of
    101 control points. *)
Lemma buildWrapCurve_negative_radius_returns :
  Ribbon.curve (-1) (-1) 2.5 3
  = Returned (mkCurve (Ribbon.loop 100 0.2 (-1) (-1) 2.5 3))
  /\ length (Ribbon.loop 100 0.2 (-1) (-1) 2.5 3) = 101%nat
  /\ -1 < 0
  /\ forall message, Ribbon.curve (-1) (-1) 2.5 3 <> Thrown message.
Proof.
  split; [reflexivity |].
  split; [apply loop_length |].
  split; [lra |].
  intros message H. discriminate H.
Qed.

(** C3 (amended).  The curve construction validates nothing: for all radii,
    height and turns it returns a curve, of exactly 101 control points. *)
Theorem buildWrapCurve_always_returns :
  forall radiusBottom radiusTop height turns : R,
  exists c,
    Ribbon.curve radiusBottom radiusTop height turns = Returned c
    /\ length (points c) = 101%nat.
Proof.
  intros rb rt h turns. eexists. split; [reflexivity |].
  cbn [points]. apply loop_length.
Qed.

(** ** The ring of ornaments *)

Section RingFacts.

Variables (count : Z).
Variables (radius verticalBaseOffset verticalWaveAmplitude
           verticalWaveFrequency baseScale jitterRange : R).

Let place := Ring.place count radius verticalBaseOffset
                        verticalWaveAmplitude verticalWaveFrequency.
Let loop := Ring.loop count radius verticalBaseOffset verticalWaveAmplitude
                      verticalWaveFrequency baseScale jitterRange.

(** The item pushed by iteration [k] of a loop started at counter [i] with
    source [g]: the [k]-th draw of [g] sets its scale. *)
Let item_at (i : nat) (g : RandomSource) (k : nat) : Ornament :=
  mkOrnament (place (i + k)) (baseScale + g k * jitterRange) 0 0.

Lemma loop_unfold (n i : nat) (g : RandomSource) :
  loop n i g
  = (map (item_at i g) (seq 0 n), fun m => g (n + m)%nat).
Proof.
  revert i g. induction n as [| n IH]; intros i g.
  - reflexivity.
  - unfold loop in *. cbn [Ring.loop Math_random].
    rewrite IH. cbn [seq map]. f_equal. f_equal.
    + unfold item_at. rewrite Nat.add_0_r. reflexivity.
    + rewrite <- seq_shift, map_map. apply map_ext. intros k.
      unfold item_at. rewrite Nat.add_succ_r. reflexivity.
Qed.

Lemma placeAroundRing_unfold (g : RandomSource) :
  Ring.placeAroundRing count radius verticalBaseOffset verticalWaveAmplitude
                       verticalWaveFrequency baseScale jitterRange g
  = (map (item_at 0 g) (seq 0 (Z.to_nat count)),
     fun m => g (Z.to_nat count + m)%nat).
Proof. unfold Ring.placeAroundRing. apply loop_unfold. Qed.

End RingFacts.



(** C6.  For every [count >= 0] the placement loop produces exactly [count]
    placements; the [i]-th lies at angle [2 pi i / count], at
    [x = cos angle * radius], [z = sin angle * radius] and
    [y = verticalBaseOffset
         + sin (angle * verticalWaveFrequency) * verticalWaveAmplitude];
    [count = 0] gives the empty sequence. *)
Theorem placeAroundRing_placements :
  forall (count : Z) (radius verticalBaseOffset verticalWaveAmplitude
          verticalWaveFrequency baseScale jitterRange : R) (g : RandomSource),
    (0 <= count)%Z ->
    let items :=
      fst (Ring.placeAroundRing count radius verticalBaseOffset
             verticalWaveAmplitude verticalWaveFrequency
             baseScale jitterRange g) in
    Z.of_nat (length items) = count
    /\ (forall i : nat, (Z.of_nat i < count)%Z ->
          let angle := 2 * PI * INR i / IZR count in
          option_map position (nth_error items i)
          = Some (mkVector3
                    (cos angle * radius)
                    (verticalBaseOffset
                     + sin (angle * verticalWaveFrequency)
                       * verticalWaveAmplitude)
                    (sin angle * radius)))
    /\ (count = 0%Z -> items = []).
Proof.
  intros count radius vb va vf bs jr g Hcount items.
  unfold items. rewrite placeAroundRing_unfold. cbn [fst].
  split; [| split].
  - rewrite length_map, length_seq. apply Z2Nat.id. exact Hcount.
  - intros i Hi.
    rewrite nth_error_map, nth_error_seq.
    destruct (Nat.ltb_spec i (Z.to_nat count)) as [_ | Hge]; [| lia].
    cbn [option_map position Nat.add]. unfold Ring.place.
    replace (INR i / IZR count * PI * 2) with (2 * PI * INR i / IZR count)
      by (unfold Rdiv; ring).
    reflexivity.
  - intros ->. reflexivity.
Qed.

(** The ring of the layer with [layerIndex = 1] in the source: eight
    ornaments. *)
Lemma placeAroundRing_placements_witness :
  (0 <= 6 + 1 * 2)%Z
  /\ Z.of_nat (length (fst (Ring.ornaments 1 (constant_source 0)))) = 8%Z.
Proof.
  assert (H0 : (0 <= 6 + 1 * 2)%Z) by lia.
  split; [exact H0 |].
  exact (proj1 (placeAroundRing_placements
                  (6 + 1 * 2) 1.3 (-0.8) 0.2 3 0.6 0.4 (constant_source 0) H0)).
Defined.




(** ** Per-frame callbacks *)

Lemma dir_even (index : Z) : Z.even index = true -> TreeLayerC.dir index = 1.
Proof.
  intros He. unfold TreeLayerC.dir.
  apply Z.even_spec in He. destruct He as [m ->].
  rewrite Z.mul_comm, Z.rem_mul by lia. reflexivity.
Qed.

Lemma dir_odd (index : Z) : Z.even index = false -> TreeLayerC.dir index = -1.
Proof.
  intros Ho. unfold TreeLayerC.dir.
  destruct (Z.eqb_spec (Z.rem index 2) 0) as [Hr | _]; [| reflexivity].
  pose proof (Z.quot_rem' index 2) as Hq. rewrite Hr in Hq.
  assert (He : Z.even index = true)
    by (apply Z.even_spec; exists (Z.quot index 2); lia).
  congruence.
Qed.

Section LayerRun.

(** What a run of frames leaves of one layer. *)

Lemma run_layer_layerIndex (deltas : list R) :
  forall e l, layerIndex (run_layer e deltas l) = layerIndex l.
Proof.
  induction deltas as [| d rest IH]; intros e l; [reflexivity |].
  cbn [run_layer]. rewrite IH. reflexivity.
Qed.

Lemma run_layer_rotationSpeed (deltas : list R) :
  forall e l, rotationSpeed (run_layer e deltas l) = rotationSpeed l.
Proof.
  induction deltas as [| d rest IH]; intros e l; [reflexivity |].
  cbn [run_layer]. rewrite IH. reflexivity.
Qed.

Lemma run_layer_rotation_y (deltas : list R) :
  forall e l,
    layer_rotation_y (run_layer e deltas l)
    = layer_rotation_y l
      + total deltas * rotationSpeed l * TreeLayerC.dir (layerIndex l) * 0.5.
Proof.
  induction deltas as [| d rest IH]; intros e l.
  - cbn [run_layer total fold_right]. ring.
  - cbn [run_layer]. rewrite IH.
    unfold total. cbn [fold_right frame_layer TreeLayerC.useFrame
                       layer_rotation_y rotationSpeed layerIndex].
    ring.
Qed.

Lemma run_layer_ornaments (deltas : list R) :
  forall e l,
    layer_ornaments (run_layer e deltas l)
    = map (fun o =>
             mkOrnament (position o) (scale o)
                        (rotation_y o + INR (length deltas) * 0.01)
                        (rotation_z o + INR (length deltas) * 0.005))
          (layer_ornaments l).
Proof.
  induction deltas as [| d rest IH]; intros e l.
  - cbn [run_layer length INR]. rewrite <- (map_id (layer_ornaments l)) at 1.
    apply map_ext. intros [p s y z]. cbn. f_equal; ring.
  - cbn [run_layer]. rewrite IH.
    cbn [frame_layer TreeLayerC.useFrame layer_ornaments].
    rewrite map_map. apply map_ext. intros o.
    change (length (d :: rest)) with (S (length rest)). rewrite S_INR.
    unfold OrnamentC.useFrame. cbn [position scale rotation_y rotation_z].
    f_equal; ring.
Qed.

End LayerRun.

(** ** Runs of frames *)

Lemma run_cons (d : R) (rest : list R) (s : Scene) :
  run (d :: rest) s = run rest (tick s d).
Proof. reflexivity. Qed.


Lemma elapsedTime_run (deltas : list R) :
  forall s, elapsedTime (run deltas s) = elapsedTime s + total deltas.
Proof.
  induction deltas as [| d rest IH]; intros s.
  - cbn [run fold_left total fold_right]. ring.
  - rewrite run_cons, IH. unfold total. cbn [tick elapsedTime fold_right]. ring.
Qed.

Lemma layers_run (deltas : list R) :
  forall s,
    layers (run deltas s) = map (run_layer (elapsedTime s) deltas) (layers s).
Proof.
  induction deltas as [| d rest IH]; intros s.
  - cbn [run fold_left run_layer]. symmetry. apply map_id.
  - rewrite run_cons, IH. cbn [tick layers elapsedTime].
    rewrite map_map. reflexivity.
Qed.

Lemma layer_yaw_run (deltas : list R) (s : Scene) (k : nat) (l : TreeLayer) :
  nth_error (layers s) k = Some l ->
  layer_yaw (run deltas s) k
  = Some (layer_rotation_y l
          + total deltas * rotationSpeed l * TreeLayerC.dir (layerIndex l) * 0.5).
Proof.
  intros Hk. unfold layer_yaw.
  rewrite layers_run, map_map, nth_error_map, Hk. cbn [option_map].
  rewrite run_layer_rotation_y. reflexivity.
Qed.

Lemma total_positive (deltas : list R) :
  Forall (fun d => 0 < d) deltas -> deltas <> [] -> 0 < total deltas.
Proof.
  intros Hall Hne. destruct Hall as [| d rest Hd Hrest]; [congruence |].
  clear Hne. unfold total. cbn [fold_right].
  assert (H0 : 0 <= fold_right Rplus 0 rest).
  { induction Hrest as [| x xs Hx _ IH]; cbn [fold_right]; lra. }
  lra.
Qed.

Lemma total_frames (n : nat) (delta : R) : total (frames n delta) = INR n * delta.
Proof.
  unfold total, frames. induction n as [| n IH].
  - cbn [repeat fold_right INR]. ring.
  - rewrite S_INR. cbn [repeat fold_right]. rewrite IH. ring.
Qed.

(** ** The mounted tree *)

Lemma first_ornament_tick (s : Scene) (delta : R) :
  first_ornament (tick s delta)
  = option_map OrnamentC.useFrame (first_ornament s).
Proof.
  unfold first_ornament. cbn [tick layers].
  destruct (layers s) as [| l rest]; [reflexivity |].
  cbn [map frame_layer TreeLayerC.useFrame layer_ornaments].
  destruct (layer_ornaments l); reflexivity.
Qed.

Lemma first_ornament_ChristmasTree (g : RandomSource) :
  first_ornament (ChristmasTree g)
  = Some (mkOrnament (Ring.place 12 1.3 (-0.8) 0.2 3 0)
                     (0.6 + g 1%nat * 0.4) 0 0).
Proof.
  unfold first_ornament, ChristmasTree, treeLayers.
  cbn [Math_random layers mountLayers prop_position prop_scale
       prop_layerIndex].
  unfold mountTreeLayer at 1. unfold Ring.ornaments at 1.
  rewrite placeAroundRing_unfold.
  change (Z.to_nat (6 + 3 * 2)) with 12%nat.
  reflexivity.
Qed.

Lemma mountTreeLayer_fields (pos scl : Vector3) (index : Z) (g : RandomSource) :
  let l := fst (mountTreeLayer pos scl index g) in
  layerIndex l = index /\ rotationSpeed l = 0.2 /\ layer_rotation_y l = 0.
Proof.
  unfold mountTreeLayer. destruct (Ring.ornaments index g) as [items g'].
  cbn. repeat split.
Qed.

Lemma mountLayers_nth_error (props : list TreeLayerProps) :
  forall (g : RandomSource) (k : nat) (p : TreeLayerProps),
    nth_error props k = Some p ->
    exists l,
      nth_error (mountLayers props g) k = Some l
      /\ layerIndex l = prop_layerIndex p
      /\ rotationSpeed l = 0.2
      /\ layer_rotation_y l = 0.
Proof.
  induction props as [| q rest IH]; intros g k p Hk.
  - destruct k; discriminate Hk.
  - cbn [mountLayers].
    pose proof (mountTreeLayer_fields
                  (prop_position q) (prop_scale q) (prop_layerIndex q) g) as Hf.
    destruct (mountTreeLayer _ _ _ g) as [l g'].
    destruct k as [| k].
    + injection Hk as <-. exists l. split; [reflexivity | exact Hf].
    + cbn [nth_error] in Hk |- *. apply IH. exact Hk.
Qed.

(** ** The claims on the animation *)

(** C2 (as claimed, refuted).  On the mounted tree a frame with
    [deltaTime = 0] is not skipped: the first ornament's yaw goes from [0] to
    [0 + 0.01], so the scene changes; and a frame with [deltaTime = -1] moves
    the clock from [0] to [0 + -1]. *)
Lemma zero_delta_frame_moves_ornaments :
  let s := ChristmasTree (constant_source 0) in
  option_map rotation_y (first_ornament s) = Some 0
  /\ option_map rotation_y (first_ornament (tick s 0)) = Some (0 + 0.01)
  /\ tick s 0 <> s
  /\ elapsedTime (tick s (-1)) = 0 + -1
  /\ elapsedTime (tick s (-1)) <> elapsedTime s.
Proof.
  cbv zeta.
  assert (H0 : option_map rotation_y
                 (first_ornament (ChristmasTree (constant_source 0))) = Some 0)
    by (rewrite first_ornament_ChristmasTree; reflexivity).
  assert (H1 : option_map rotation_y
                 (first_ornament (tick (ChristmasTree (constant_source 0)) 0))
               = Some (0 + 0.01))
    by (rewrite first_ornament_tick, first_ornament_ChristmasTree; reflexivity).
  split; [exact H0 |]. split; [exact H1 |]. split; [| split].
  - intros Heq. rewrite Heq, H0 in H1. injection H1 as H1. lra.
  - reflexivity.
  - cbn [tick elapsedTime ChristmasTree]. lra.
Qed.

(** C2 (amended).  [tick] has no rejection path: whatever [deltaTime] is, the
    clock advances by it, every layer's yaw advances by
    [deltaTime * rotationSpeed * dir * 0.5] and every ornament takes its
    per-frame step.  A frame with [deltaTime = 0] that follows another frame
    leaves the clock, the topper, every layer's yaw and every ribbon
    unchanged, while every ornament still takes its per-frame step. *)
Theorem tick_never_rejects :
  forall (s : Scene) (delta : R),
    elapsedTime (tick s delta) = elapsedTime s + delta
    /\ map layer_rotation_y (layers (tick s delta))
       = map (fun l => layer_rotation_y l
                       + delta * rotationSpeed l
                         * TreeLayerC.dir (layerIndex l) * 0.5)
             (layers s)
    /\ map layer_ornaments (layers (tick s delta))
       = map (fun l => map OrnamentC.useFrame (layer_ornaments l)) (layers s)
    /\ (let s1 := tick s delta in
        let s2 := tick s1 0 in
        elapsedTime s2 = elapsedTime s1
        /\ topper s2 = topper s1
        /\ map layer_rotation_y (layers s2) = map layer_rotation_y (layers s1)
        /\ map layer_ribbon (layers s2) = map layer_ribbon (layers s1)
        /\ map layer_ornaments (layers s2)
           = map (fun l => map OrnamentC.useFrame (layer_ornaments l))
                 (layers s1)).
Proof.
  intros s delta.
  split; [reflexivity |].
  split; [cbn [tick layers]; rewrite map_map; reflexivity |].
  split; [cbn [tick layers]; rewrite map_map; reflexivity |].
  cbv zeta.
  set (s1 := tick s delta).
  assert (He : elapsedTime (tick s1 0) = elapsedTime s1)
    by (cbn [tick elapsedTime]; ring).
  split; [exact He |].
  split.
  { unfold s1 at 2. cbn [tick topper elapsedTime]. fold s1.
    unfold StarTopperC.useFrame. cbn [topper_position].
    replace (elapsedTime s1 + 0) with (elapsedTime s1) by ring.
    reflexivity. }
  split.
  { cbn [tick layers]. rewrite map_map. rewrite <- (map_id (layers s1)) at 2.
    rewrite map_map. apply map_ext. intros l.
    cbn [frame_layer TreeLayerC.useFrame layer_rotation_y rotationSpeed
         layerIndex]. ring. }
  split.
  { cbn [tick layers]. rewrite map_map.
    unfold s1 at 2 3. cbn [tick layers elapsedTime]. rewrite !map_map.
    apply map_ext. intros l.
    cbn [frame_layer TreeLayerC.useFrame layer_ribbon].
    unfold RibbonC.useFrame. cbn [ribbon_curve]. f_equal.
    change (elapsedTime s + delta) with (elapsedTime s1). ring. }
  cbn [tick layers]. rewrite map_map. reflexivity.
Qed.

(** C4.  Two layers of a scene with adjacent layer indices, the first even,
    and the same rotation speed: after any run of frames with positive
    frame times totalling [T] seconds, the even layer's yaw has advanced by
    [+1 * (rotationSpeed * T * 0.5)] and the odd layer's by
    [-1 * (rotationSpeed * T * 0.5)]: equal magnitude, opposite sign. *)
Theorem counter_rotation :
  forall (s : Scene) (deltas : list R) (i j : nat) (a b : TreeLayer),
    nth_error (layers s) i = Some a ->
    nth_error (layers s) j = Some b ->
    Z.even (layerIndex a) = true ->
    (layerIndex b = layerIndex a + 1 \/ layerIndex b = layerIndex a - 1)%Z ->
    rotationSpeed b = rotationSpeed a ->
    Forall (fun d => 0 < d) deltas ->
    let T := total deltas in
    let turned := rotationSpeed a * T * 0.5 in
    layer_yaw (run deltas s) i = Some (layer_rotation_y a + 1 * turned)
    /\ layer_yaw (run deltas s) j = Some (layer_rotation_y b + -1 * turned)
    /\ (0 < rotationSpeed a -> deltas <> [] ->
        0 < 1 * turned /\ -1 * turned < 0).
Proof.
  intros s deltas i j a b Ha Hb Heven Hadj Hspeed Hpos T turned.
  assert (Hodd : Z.even (layerIndex b) = false).
  { destruct Hadj as [-> | ->].
    - rewrite Z.even_add, Heven. reflexivity.
    - rewrite Z.even_sub, Heven. reflexivity. }
  split; [| split].
  - rewrite (layer_yaw_run deltas s i a Ha), (dir_even _ Heven).
    f_equal. unfold turned, T. ring.
  - rewrite (layer_yaw_run deltas s j b Hb), (dir_odd _ Hodd), Hspeed.
    f_equal. unfold turned, T. ring.
  - intros Hs Hne.
    pose proof (total_positive deltas Hpos Hne) as HT. fold T in HT.
    assert (0 < turned) by (unfold turned; nra).
    lra.
Qed.

(** C9.  The topper's scale after a frame at elapsed time [t] is uniform,
    equal to [1 + sin (t * 2) * 0.1] on each axis, and lies in
    [1 - 0.1, 1 + 0.1], that is in [0.9, 1.1]; so it is after every frame
    of the scene. *)
Theorem topper_scale_bounds :
  (forall (t : R) (star : StarTopper),
      let k := 1 + sin (t * 2) * 0.1 in
      topper_scale (StarTopperC.useFrame t star) = mkVector3 k k k
      /\ 1 - 0.1 <= k <= 1 + 0.1
      /\ 0.9 <= k <= 1.1)
  /\ (forall (s : Scene) (delta : R),
         let k := 1 + sin (elapsedTime (tick s delta) * 2) * 0.1 in
         topper_scale (topper (tick s delta)) = mkVector3 k k k
         /\ 0.9 <= k <= 1.1).
Proof.
  split.
  - intros t star k.
    pose proof (SIN_bound (t * 2)) as [Hlo Hhi].
    split; [reflexivity |]. unfold k. split; lra.
  - intros s delta k.
    pose proof (SIN_bound (elapsedTime (tick s delta) * 2)) as [Hlo Hhi].
    split; [reflexivity |]. unfold k. lra.
Qed.

(** C10.  After a run of frames every ornament's yaw has advanced by [0.01]
    and its roll by [0.005] for each frame of the run, whatever the frame
    times were: two runs of the same number of frames leave every ornament
    in the same orientation. *)
Theorem ornament_rotation_counts_frames :
  forall (s : Scene) (deltas : list R),
    map layer_ornaments (layers (run deltas s))
    = map (fun l =>
             map (fun o =>
                    mkOrnament (position o) (scale o)
                               (rotation_y o + INR (length deltas) * 0.01)
                               (rotation_z o + INR (length deltas) * 0.005))
                 (layer_ornaments l))
          (layers s)
    /\ (forall deltas' : list R,
          length deltas' = length deltas ->
          map layer_ornaments (layers (run deltas' s))
          = map layer_ornaments (layers (run deltas s))).
Proof.
  assert (Hclosed : forall (s : Scene) (deltas : list R),
             map layer_ornaments (layers (run deltas s))
             = map (fun l =>
                      map (fun o =>
                             mkOrnament (position o) (scale o)
                               (rotation_y o + INR (length deltas) * 0.01)
                               (rotation_z o + INR (length deltas) * 0.005))
                          (layer_ornaments l))
                   (layers s)).
  { intros s deltas. rewrite layers_run, map_map. apply map_ext. intros l.
    apply run_layer_ornaments. }
  intros s deltas. split; [apply Hclosed |].
  intros deltas' Hlen. rewrite !Hclosed, Hlen. reflexivity.
Qed.

(** On the mounted tree: the layers with [layerIndex] 2 and 1, two frames of
    one second. *)
Lemma counter_rotation_witness :
  Forall (fun d => 0 < d) [1; 1]
  /\ layer_yaw (run [1; 1] (ChristmasTree (constant_source 0))) 1
     = Some (0 + 1 * (0.2 * (1 + (1 + 0)) * 0.5))
  /\ layer_yaw (run [1; 1] (ChristmasTree (constant_source 0))) 2
     = Some (0 + -1 * (0.2 * (1 + (1 + 0)) * 0.5)).
Proof.
  pose (m1 := mountTreeLayer (mkVector3 0 0 0) (mkVector3 1.5 1.2 1.5) 3
                             (constant_source 0)).
  pose (m2 := mountTreeLayer (mkVector3 0 1.5 0) (mkVector3 1.2 1.2 1.2) 2
                             (snd m1)).
  pose (m3 := mountTreeLayer (mkVector3 0 2.8 0) (mkVector3 0.9 1.2 0.9) 1
                             (snd m2)).
  assert (Hpos : Forall (fun d => 0 < d) [1; 1])
    by (repeat constructor; lra).
  split; [exact Hpos |].
  pose proof (counter_rotation
                (ChristmasTree (constant_source 0)) [1; 1] 1%nat 2%nat
                (fst m2) (fst m3)
                eq_refl eq_refl eq_refl (or_intror eq_refl) eq_refl Hpos) as H.
  cbv zeta in H. destruct H as (Heven & Hodd & _).
  split; [exact Heven | exact Hodd].
Defined.

(** ** Stored angles over a run *)

Lemma run_layer_ribbon (rest : list R) :
  forall d e l,
    ribbon_rotation_y (layer_ribbon (run_layer e (d :: rest) l))
    = - (e + total (d :: rest)) * 0.15.
Proof.
  induction rest as [| d' rest IH]; intros d e l.
  - cbn [run_layer frame_layer TreeLayerC.useFrame layer_ribbon
         RibbonC.useFrame ribbon_rotation_y].
    unfold total. cbn [fold_right]. ring.
  - change (run_layer e (d :: d' :: rest) l)
      with (run_layer (e + d) (d' :: rest) (frame_layer (e + d) d l)).
    rewrite IH. unfold total. cbn [fold_right]. ring.
Qed.

Lemma topper_run (rest : list R) :
  forall d s,
    topper_rotation_y (topper (run (d :: rest) s))
    = (elapsedTime s + total (d :: rest)) * 0.5.
Proof.
  induction rest as [| d' rest IH]; intros d s.
  - cbn [run fold_left tick topper StarTopperC.useFrame topper_rotation_y].
    unfold total. cbn [fold_right]. ring.
  - rewrite run_cons, IH. unfold total.
    cbn [tick elapsedTime fold_right]. ring.
Qed.

(** C8 (as claimed, refuted).  Stored angles leave [0, 2 pi).  On the
    mounted tree, after one frame of one second the layer with
    [layerIndex = 1] has yaw [-0.1 < 0]; after a hundred such frames the
    layer with [layerIndex = 0] has yaw [10 >= 2 pi]. *)
Lemma yaw_leaves_range :
  (exists y,
      layer_yaw (run [1] (ChristmasTree (constant_source 0))) 2 = Some y
      /\ y = -0.1 /\ ~ (0 <= y < 2 * PI))
  /\ (exists y,
         layer_yaw (run (frames 100 1) (ChristmasTree (constant_source 0))) 3
         = Some y
         /\ y = 10 /\ ~ (0 <= y < 2 * PI)).
Proof.
  split.
  - destruct (mountLayers_nth_error treeLayers (constant_source 0) 2
                (mkProps (mkVector3 0 2.8 0) (mkVector3 0.9 1.2 0.9) 1) eq_refl)
      as (l & Hl & Hindex & Hspeed & Hyaw).
    cbn [prop_layerIndex] in Hindex.
    eexists. split.
    { apply (layer_yaw_run [1] (ChristmasTree (constant_source 0)) 2 l).
      exact Hl. }
    rewrite Hindex, Hspeed, Hyaw.
    change (TreeLayerC.dir 1) with (-1). unfold total. cbn [fold_right].
    split; lra.
  - destruct (mountLayers_nth_error treeLayers (constant_source 0) 3
                (mkProps (mkVector3 0 3.8 0) (mkVector3 0.5 1 0.5) 0) eq_refl)
      as (l & Hl & Hindex & Hspeed & Hyaw).
    cbn [prop_layerIndex] in Hindex.
    eexists. split.
    { apply (layer_yaw_run (frames 100 1)
                           (ChristmasTree (constant_source 0)) 3 l).
      exact Hl. }
    rewrite Hindex, Hspeed, Hyaw, total_frames.
    change (TreeLayerC.dir 0) with 1.
    rewrite INR_IZR_INZ. change (Z.of_nat 100) with 100%Z.
    pose proof PI_4 as Hpi.
    split; lra.
Qed.

(** C8 (amended).  No stored angle is reduced modulo [2 pi].  After a run of
    frames totalling [T] seconds each layer's yaw is its initial yaw plus
    [dir * 0.5 * rotationSpeed * T], each ornament's yaw and roll are the
    initial ones plus [0.01] and [0.005] per frame, and after at least one
    frame the topper's yaw is [0.5] times the elapsed time and each ribbon's
    is [-0.15] times the elapsed time. *)
Theorem rotation_accumulates_unreduced :
  forall (s : Scene) (deltas : list R),
    map layer_rotation_y (layers (run deltas s))
    = map (fun l => layer_rotation_y l
                    + TreeLayerC.dir (layerIndex l) * 0.5 * rotationSpeed l
                      * total deltas)
          (layers s)
    /\ map (fun l => map (fun o => (rotation_y o, rotation_z o))
                         (layer_ornaments l))
           (layers (run deltas s))
       = map (fun l => map (fun o =>
                              (rotation_y o + 0.01 * INR (length deltas),
                               rotation_z o + 0.005 * INR (length deltas)))
                           (layer_ornaments l))
             (layers s)
    /\ (deltas <> [] ->
        topper_rotation_y (topper (run deltas s))
        = 0.5 * elapsedTime (run deltas s)
        /\ map (fun l => ribbon_rotation_y (layer_ribbon l))
               (layers (run deltas s))
           = map (fun _ => -0.15 * elapsedTime (run deltas s)) (layers s)).
Proof.
  intros s deltas. split; [| split].
  - rewrite layers_run, map_map. apply map_ext. intros l.
    rewrite run_layer_rotation_y. ring.
  - rewrite layers_run, map_map. apply map_ext. intros l.
    rewrite run_layer_ornaments, map_map. apply map_ext. intros o.
    cbn [rotation_y rotation_z]. apply (f_equal2 (@pair R R)); ring.
  - intros Hne. destruct deltas as [| d rest]; [congruence |].
    rewrite elapsedTime_run. split.
    + rewrite topper_run. ring.
    + rewrite layers_run, map_map. apply map_ext. intros l.
      rewrite run_layer_ribbon. cbv beta. lra.
Qed.

(** * Further properties of the geometry *)

Lemma parameter_unit (steps i : nat) :
  (1 <= steps)%nat -> (i <= steps)%nat -> 0 <= INR i / INR steps <= 1.
Proof.
  intros Hs Hi.
  assert (Hpos : 0 < INR steps) by (apply lt_0_INR; lia).
  assert (Hle : INR i <= INR steps) by (apply le_INR; exact Hi).
  assert (H0 : 0 <= INR i) by apply pos_INR.
  split.
  - apply Rmult_le_pos; [exact H0 | left; apply Rinv_0_lt_compat; exact Hpos].
  - apply (Rmult_le_reg_r (INR steps)); [exact Hpos |].
    unfold Rdiv. rewrite Rmult_assoc, Rinv_l by lra. lra.
Qed.





(** X2.  The ribbon is centred vertically: its first control point is at
    height [-height / 2], its last at [height / 2], and for a positive
    [height] the control points rise strictly, so all of them stay between
    the two. *)
Theorem ribbon_rises :
  forall (steps : nat) (rOffset radiusBottom radiusTop height turns : R),
    (1 <= steps)%nat ->
    0 < height ->
    let y := fun i =>
               vy (Ribbon.point steps rOffset radiusBottom radiusTop
                                height turns i) in
    y O = - height / 2
    /\ y steps = height / 2
    /\ (forall i j, (i < j <= steps)%nat -> y i < y j)
    /\ (forall i, (i <= steps)%nat -> - height / 2 <= y i <= height / 2).
Proof.
  intros steps rOffset rb rt h turns Hs Hh y.
  unfold y, Ribbon.point. cbn [vy].
  assert (Hlast : INR steps / INR steps = 1) by (apply parameter_last; exact Hs).
  assert (Hfirst : INR 0 / INR steps = 0) by (unfold Rdiv; cbn [INR]; ring).
  split; [rewrite Hfirst; lra |].
  split; [rewrite Hlast; lra |].
  split.
  - intros i j [Hij Hj].
    pose proof (parameter_strictly_monotone steps i j Hs Hij). nra.
  - intros i Hi.
    pose proof (parameter_unit steps i Hs Hi) as [H0 H1]. split; nra.
Qed.

Lemma ribbon_rises_witness :
  (1 <= Ribbon.steps)%nat /\ 0 < 2.5
  /\ vy (Ribbon.point Ribbon.steps Ribbon.rOffset 1.8 0.1 2.5 3 Ribbon.steps)
     = 2.5 / 2.
Proof.
  assert (Hs : (1 <= Ribbon.steps)%nat) by (unfold Ribbon.steps; lia).
  assert (Hh : 0 < 2.5) by lra.
  split; [exact Hs |]. split; [exact Hh |].
  exact (proj1 (proj2 (ribbon_rises Ribbon.steps Ribbon.rOffset
                                    1.8 0.1 2.5 3 Hs Hh))).
Defined.


Lemma Some_eq {A : Type} (x y : A) : Some x = Some y -> x = y.
Proof. intros H. congruence. Qed.

(** * Further properties of the mounted tree and of the animation *)

Lemma run_layer_static (deltas : list R) :
  forall e l,
    layer_position (run_layer e deltas l) = layer_position l
    /\ layer_scale (run_layer e deltas l) = layer_scale l
    /\ ribbon_curve (layer_ribbon (run_layer e deltas l))
       = ribbon_curve (layer_ribbon l).
Proof.
  induction deltas as [| d rest IH]; intros e l.
  - repeat split.
  - cbn [run_layer].
    destruct (IH (e + d) (frame_layer (e + d) d l)) as (Hp & Hs & Hc).
    rewrite Hp, Hs, Hc. repeat split.
Qed.

Lemma topper_position_run (deltas : list R) :
  forall s, topper_position (topper (run deltas s)) = topper_position (topper s).
Proof.
  induction deltas as [| d rest IH]; intros s; [reflexivity |].
  rewrite run_cons, IH. reflexivity.
Qed.

(** X7.  Animation only turns things and pulses the topper: after any run of
    frames the scene has the same layers with the same positions, scales,
    indices, speeds and ribbon curves, every layer has the same ornaments at
    the same positions with the same scales, and the topper is where it
    was. *)
Theorem run_keeps_layout :
  forall (s : Scene) (deltas : list R),
    let s' := run deltas s in
    length (layers s') = length (layers s)
    /\ map layer_position (layers s') = map layer_position (layers s)
    /\ map layer_scale (layers s') = map layer_scale (layers s)
    /\ map layerIndex (layers s') = map layerIndex (layers s)
    /\ map rotationSpeed (layers s') = map rotationSpeed (layers s)
    /\ map (fun l => ribbon_curve (layer_ribbon l)) (layers s')
       = map (fun l => ribbon_curve (layer_ribbon l)) (layers s)
    /\ map (fun l => map (fun o => (position o, scale o)) (layer_ornaments l))
           (layers s')
       = map (fun l => map (fun o => (position o, scale o)) (layer_ornaments l))
             (layers s)
    /\ topper_position (topper s') = topper_position (topper s).
Proof.
  intros s deltas s'. unfold s'. rewrite layers_run.
  split; [apply length_map |].
  rewrite !map_map.
  split; [apply map_ext; intros l; apply run_layer_static |].
  split; [apply map_ext; intros l; apply run_layer_static |].
  split; [apply map_ext; intros l; apply run_layer_layerIndex |].
  split; [apply map_ext; intros l; apply run_layer_rotationSpeed |].
  split; [apply map_ext; intros l; apply run_layer_static |].
  split; [| apply topper_position_run].
  apply map_ext. intros l.
  rewrite run_layer_ornaments, map_map. reflexivity.
Qed.

Lemma topper_run_full (rest : list R) :
  forall d s,
    topper (run (d :: rest) s)
    = StarTopperC.useFrame (elapsedTime s + total (d :: rest)) (topper s).
Proof.
  induction rest as [| d' rest IH]; intros d s.
  - cbn [run fold_left tick topper]. unfold total. cbn [fold_right].
    replace (elapsedTime s + (d + 0)) with (elapsedTime s + d) by ring.
    reflexivity.
  - rewrite run_cons, IH. unfold total, StarTopperC.useFrame.
    cbn [tick elapsedTime topper fold_right topper_position].
    replace (elapsedTime s + d + (d' + fold_right Rplus 0 rest))
      with (elapsedTime s + (d + (d' + fold_right Rplus 0 rest))) by ring.
    reflexivity.
Qed.

Lemma run_layer_ribbon_full (rest : list R) :
  forall d e l,
    layer_ribbon (run_layer e (d :: rest) l)
    = RibbonC.useFrame (e + total (d :: rest)) (layer_ribbon l).
Proof.
  induction rest as [| d' rest IH]; intros d e l.
  - cbn [run_layer frame_layer TreeLayerC.useFrame layer_ribbon].
    unfold total. cbn [fold_right].
    replace (e + (d + 0)) with (e + d) by ring. reflexivity.
  - change (run_layer e (d :: d' :: rest) l)
      with (run_layer (e + d) (d' :: rest) (frame_layer (e + d) d l)).
    rewrite IH. unfold total, RibbonC.useFrame.
    cbn [frame_layer TreeLayerC.useFrame layer_ribbon ribbon_curve fold_right].
    replace (e + d + (d' + fold_right Rplus 0 rest))
      with (e + (d + (d' + fold_right Rplus 0 rest))) by ring.
    reflexivity.
Qed.

(** X8.  The topper and the ribbons keep no state of their own between
    frames: after at least one frame they are what their callbacks make of
    the current clock value.  So two runs that end at the same clock value
    leave the same topper (yaw and scale) and the same rotation on every
    ribbon, however many frames each of them took. *)
Theorem topper_and_ribbons_follow_clock :
  forall (s : Scene) (deltas deltas' : list R),
    deltas <> [] -> deltas' <> [] ->
    elapsedTime (run deltas s) = elapsedTime (run deltas' s) ->
    topper (run deltas s)
    = StarTopperC.useFrame (elapsedTime (run deltas s)) (topper s)
    /\ map layer_ribbon (layers (run deltas s))
       = map (fun l => RibbonC.useFrame (elapsedTime (run deltas s))
                                        (layer_ribbon l))
             (layers s)
    /\ topper (run deltas s) = topper (run deltas' s)
    /\ map layer_ribbon (layers (run deltas s))
       = map layer_ribbon (layers (run deltas' s)).
Proof.
  assert (Hfollow : forall (s : Scene) (ds : list R),
             ds <> [] ->
             topper (run ds s)
             = StarTopperC.useFrame (elapsedTime (run ds s)) (topper s)
             /\ map layer_ribbon (layers (run ds s))
                = map (fun l => RibbonC.useFrame (elapsedTime (run ds s))
                                                 (layer_ribbon l))
                      (layers s)).
  { intros s ds Hne. destruct ds as [| d rest]; [congruence |].
    rewrite elapsedTime_run. split; [apply topper_run_full |].
    rewrite layers_run, map_map. apply map_ext. intros l.
    apply run_layer_ribbon_full. }
  intros s deltas deltas' Hne Hne' Hclock.
  destruct (Hfollow s deltas Hne) as [Ht Hr].
  destruct (Hfollow s deltas' Hne') as [Ht' Hr'].
  split; [exact Ht |]. split; [exact Hr |].
  split.
  - rewrite Ht, Ht', Hclock. reflexivity.
  - rewrite Hr, Hr', Hclock. reflexivity.
Qed.

(** Two frames of one second against one frame of two seconds. *)
Lemma topper_and_ribbons_follow_clock_witness :
  elapsedTime (run [1; 1] (ChristmasTree (constant_source 0)))
  = elapsedTime (run [2] (ChristmasTree (constant_source 0)))
  /\ topper (run [1; 1] (ChristmasTree (constant_source 0)))
     = topper (run [2] (ChristmasTree (constant_source 0))).
Proof.
  assert (Hc : elapsedTime (run [1; 1] (ChristmasTree (constant_source 0)))
               = elapsedTime (run [2] (ChristmasTree (constant_source 0))))
    by (cbn [run fold_left tick elapsedTime ChristmasTree Math_random]; lra).
  split; [exact Hc |].
  refine (proj1 (proj2 (proj2 (topper_and_ribbons_follow_clock
                                 (ChristmasTree (constant_source 0))
                                 [1; 1] [2] _ _ Hc)))); discriminate.
Defined.

Lemma ornaments_run (deltas : list R) (s : Scene) :
  map layer_ornaments (layers (run deltas s))
  = map (fun l =>
           map (fun o =>
                  mkOrnament (position o) (scale o)
                             (rotation_y o + INR (length deltas) * 0.01)
                             (rotation_z o + INR (length deltas) * 0.005))
               (layer_ornaments l))
        (layers s).
Proof.
  rewrite layers_run, map_map. apply map_ext. intros l.
  apply run_layer_ornaments.
Qed.

(** X9.  The ornaments count the frames: in a scene with at least one
    ornament, two runs leave the ornaments in the same orientation exactly
    when they have the same number of frames, whatever the frame times. *)
Theorem ornaments_tell_frame_count :
  forall (s : Scene) (deltas deltas' : list R) (k : nat) (l : TreeLayer),
    nth_error (layers s) k = Some l ->
    layer_ornaments l <> [] ->
    (map layer_ornaments (layers (run deltas s))
     = map layer_ornaments (layers (run deltas' s))
     <-> length deltas = length deltas').
Proof.
  intros s deltas deltas' k l Hk Hne. rewrite !ornaments_run. split.
  - intros Heq.
    apply (f_equal (fun ls => nth_error ls k)) in Heq.
    rewrite !nth_error_map, Hk in Heq. cbn [option_map] in Heq.
    apply Some_eq in Heq.
    destruct (layer_ornaments l) as [| o rest]; [congruence |].
    cbn [map] in Heq.
    apply (f_equal (fun os => option_map rotation_y (head os))) in Heq.
    cbn [head option_map rotation_y] in Heq. apply Some_eq in Heq.
    apply INR_eq. lra.
  - intros ->. reflexivity.
Qed.

(** On the mounted tree: one frame against two. *)
Lemma ornaments_tell_frame_count_witness :
  map layer_ornaments (layers (run [1] (ChristmasTree (constant_source 0))))
  = map layer_ornaments
        (layers (run [0.5; 0.5] (ChristmasTree (constant_source 0))))
  <-> length [1] = length [0.5; 0.5].
Proof.
  apply (ornaments_tell_frame_count
           (ChristmasTree (constant_source 0)) [1] [0.5; 0.5] 0
           (fst (mountTreeLayer (mkVector3 0 0 0) (mkVector3 1.5 1.2 1.5) 3
                                (constant_source 0)))
           eq_refl).
  discriminate.
Defined.


(** X11.  The direction of a layer is +1 exactly on even indices and -1 on
    all others, negative indices included: it flips from every index to the
    next and repeats with period two. *)
Theorem dir_alternates :
  forall index : Z,
    (TreeLayerC.dir index = 1 <-> Z.even index = true)
    /\ (TreeLayerC.dir index = -1 <-> Z.even index = false)
    /\ TreeLayerC.dir (index + 1) = - TreeLayerC.dir index
    /\ TreeLayerC.dir (index + 2) = TreeLayerC.dir index.
Proof.
  intros index.
  assert (Hsucc : Z.even (index + 1) = negb (Z.even index)).
  { rewrite Z.even_add. destruct (Z.even index); reflexivity. }
  assert (Htwo : Z.even (index + 2) = Z.even index).
  { rewrite Z.even_add. destruct (Z.even index); reflexivity. }
  destruct (Z.even index) eqn:He.
  - rewrite (dir_even index He), (dir_odd (index + 1) Hsucc),
      (dir_even (index + 2) Htwo).
    repeat split; intros; try reflexivity; try lra; discriminate.
  - rewrite (dir_odd index He), (dir_even (index + 1) Hsucc),
      (dir_odd (index + 2) Htwo).
    repeat split; intros; try reflexivity; try lra; discriminate.
Qed.

(** X12.  From a clock that is not negative, after at least one frame of
    positive time, every ribbon has turned to a negative angle, [-0.15]
    times the elapsed time.  A layer of positive speed has turned forward
    when its index is even and backward when it is odd: the ribbon turns
    against its layer on the even layers and along with it on the odd
    ones. *)
Theorem ribbon_turns_backward :
  forall (s : Scene) (deltas : list R) (k : nat) (l : TreeLayer),
    nth_error (layers s) k = Some l ->
    0 <= elapsedTime s ->
    Forall (fun d => 0 < d) deltas ->
    deltas <> [] ->
    0 < rotationSpeed l ->
    exists l',
      nth_error (layers (run deltas s)) k = Some l'
      /\ ribbon_rotation_y (layer_ribbon l')
         = -0.15 * elapsedTime (run deltas s)
      /\ ribbon_rotation_y (layer_ribbon l') < 0
      /\ (Z.even (layerIndex l) = true ->
          layer_rotation_y l < layer_rotation_y l')
      /\ (Z.even (layerIndex l) = false ->
          layer_rotation_y l' < layer_rotation_y l).
Proof.
  intros s deltas k l Hk Hclock Hpos Hne Hspeed.
  pose proof (total_positive deltas Hpos Hne) as HT.
  exists (run_layer (elapsedTime s) deltas l).
  split; [rewrite layers_run, nth_error_map, Hk; reflexivity |].
  rewrite elapsedTime_run, run_layer_rotation_y.
  destruct deltas as [| d rest]; [congruence |].
  rewrite run_layer_ribbon.
  split; [lra |]. split; [lra |]. split.
  - intros He. rewrite (dir_even _ He). nra.
  - intros Ho. rewrite (dir_odd _ Ho). nra.
Qed.

(** The bottom layer of the mounted tree ([layerIndex = 3]) after one frame
    of one second. *)
Lemma ribbon_turns_backward_witness :
  exists l',
    nth_error (layers (run [1] (ChristmasTree (constant_source 0)))) 0
    = Some l'
    /\ ribbon_rotation_y (layer_ribbon l') < 0.
Proof.
  assert (Hpos : Forall (fun d => 0 < d) [1]) by (repeat constructor; lra).
  assert (Hclock : 0 <= elapsedTime (ChristmasTree (constant_source 0)))
    by (cbn [ChristmasTree Math_random elapsedTime]; lra).
  assert (Hspeed : 0 < 0.2) by lra.
  assert (Hne : [1] <> []) by discriminate.
  destruct (ribbon_turns_backward
              (ChristmasTree (constant_source 0)) [1] 0
              (fst (mountTreeLayer (mkVector3 0 0 0) (mkVector3 1.5 1.2 1.5) 3
                                   (constant_source 0)))
              eq_refl Hclock Hpos Hne Hspeed)
    as (l' & Hl' & _ & Hneg & _).
  exists l'. split; [exact Hl' | exact Hneg].
Defined.

(** ** Runs of equal frames *)




